(** * The libretro interface of YearnCore

    A shallow embedding of the two C headers of the CLibretro module,

      - [include/libretro.h]: the constants, structs, callback typedefs and
        the prototypes of the core API;
      - [include/static_cores.h]: the macro [DECLARE_LIBRETRO_CORE] and its
        eight instantiations,

    and the conformance properties of these declarations.  A header has no
    behaviour of its own, so the embedding is the declarations as data: a
    [#define] is a name with its integer, a prototype is a return type, a
    name and a parameter list, and the function-like macro is a function
    from the pasted prefix to the prototypes it expands to. *)

From Stdlib Require Import ZArith List String Ascii Bool Lia PeanoNat.
Import ListNotations.
Open Scope string_scope.

(** ** C types, as far as the two headers spell them *)

Inductive ctype : Type :=
| Tvoid
| T_Bool                      (* the keyword [_Bool], as libretro.h writes it *)
| Tbool                       (* [bool], the macro of <stdbool.h> for [_Bool] *)
| Tchar
| Tunsigned
| Tint16_t
| Tsize_t
| Tfloat
| Tdouble
| Tstruct (tag : string)
| Tenum (tag : string)
| Tnamed (name : string)      (* a typedef name, e.g. [retro_environment_t] *)
| Tconst (t : ctype)          (* [const t] *)
| Tptr (t : ctype).           (* [t *] *)

Fixpoint ctype_eqb (a b : ctype) : bool :=
  match a, b with
  | Tvoid, Tvoid | T_Bool, T_Bool | Tbool, Tbool | Tchar, Tchar
  | Tunsigned, Tunsigned | Tint16_t, Tint16_t | Tsize_t, Tsize_t
  | Tfloat, Tfloat | Tdouble, Tdouble => true
  | Tstruct s, Tstruct s' | Tenum s, Tenum s' | Tnamed s, Tnamed s' =>
      String.eqb s s'
  | Tconst t, Tconst t' | Tptr t, Tptr t' => ctype_eqb t t'
  | _, _ => false
  end.

(** <stdbool.h> defines [bool] as a macro that expands to [_Bool]; after
    preprocessing the two spellings are one type. *)
Fixpoint expand_stdbool (t : ctype) : ctype :=
  match t with
  | Tbool => T_Bool
  | Tconst t' => Tconst (expand_stdbool t')
  | Tptr t' => Tptr (expand_stdbool t')
  | _ => t
  end.

(** [const] dropped at every level: what a type points to, read-only or not. *)
Fixpoint strip_const (t : ctype) : ctype :=
  match t with
  | Tconst t' => strip_const t'
  | Tptr t' => Tptr (strip_const t')
  | _ => t
  end.

(** ** Declarations *)

(** A parameter: its type and, where the prototype names it, its name. *)
Record param : Type := mkparam { p_type : ctype; p_name : option string }.

(** A function prototype [ret name(params);].  The parameter list [(void)]
    is the empty list. *)
Record fundecl : Type :=
  mkfun { fd_ret : ctype; fd_name : string; fd_params : list param }.

(** A callback typedef [typedef ret ( *name)(params);]. *)
Record callback : Type :=
  mkcb { cb_ret : ctype; cb_name : string; cb_params : list param }.

(** A struct member. *)
Record field : Type := mkfield { f_type : ctype; f_name : string }.

(** An object-like macro whose body is an integer literal. *)
Record define : Type := mkdef { d_name : string; d_value : Z }.

(** An enumerator: its name and, where the header writes one, its value. *)
Record enumerator : Type := mkenum { e_name : string; e_init : option Z }.


Definition anon (t : ctype) : param := mkparam t None.
Definition named (t : ctype) (x : string) : param := mkparam t (Some x).

Fixpoint list_eqb {A : Type} (eqb : A -> A -> bool) (l l' : list A) : bool :=
  match l, l' with
  | [], [] => true
  | x :: l, y :: l' => eqb x y && list_eqb eqb l l'
  | _, _ => false
  end.

(** ** libretro.h *)

Module Libretro.

(** Device types *)
Definition RETRO_DEVICE_NONE : Z := 0.
Definition RETRO_DEVICE_JOYPAD : Z := 1.
Definition RETRO_DEVICE_MOUSE : Z := 2.
Definition RETRO_DEVICE_KEYBOARD : Z := 3.
Definition RETRO_DEVICE_LIGHTGUN : Z := 4.
Definition RETRO_DEVICE_ANALOG : Z := 5.
Definition RETRO_DEVICE_POINTER : Z := 6.

Definition device_types : list define :=
  [ mkdef "RETRO_DEVICE_NONE" RETRO_DEVICE_NONE;
    mkdef "RETRO_DEVICE_JOYPAD" RETRO_DEVICE_JOYPAD;
    mkdef "RETRO_DEVICE_MOUSE" RETRO_DEVICE_MOUSE;
    mkdef "RETRO_DEVICE_KEYBOARD" RETRO_DEVICE_KEYBOARD;
    mkdef "RETRO_DEVICE_LIGHTGUN" RETRO_DEVICE_LIGHTGUN;
    mkdef "RETRO_DEVICE_ANALOG" RETRO_DEVICE_ANALOG;
    mkdef "RETRO_DEVICE_POINTER" RETRO_DEVICE_POINTER ].

(** Joypad buttons *)
Definition RETRO_DEVICE_ID_JOYPAD_B : Z := 0.
Definition RETRO_DEVICE_ID_JOYPAD_Y : Z := 1.
Definition RETRO_DEVICE_ID_JOYPAD_SELECT : Z := 2.
Definition RETRO_DEVICE_ID_JOYPAD_START : Z := 3.
Definition RETRO_DEVICE_ID_JOYPAD_UP : Z := 4.
Definition RETRO_DEVICE_ID_JOYPAD_DOWN : Z := 5.
Definition RETRO_DEVICE_ID_JOYPAD_LEFT : Z := 6.
Definition RETRO_DEVICE_ID_JOYPAD_RIGHT : Z := 7.
Definition RETRO_DEVICE_ID_JOYPAD_A : Z := 8.
Definition RETRO_DEVICE_ID_JOYPAD_X : Z := 9.
Definition RETRO_DEVICE_ID_JOYPAD_L : Z := 10.
Definition RETRO_DEVICE_ID_JOYPAD_R : Z := 11.
Definition RETRO_DEVICE_ID_JOYPAD_L2 : Z := 12.
Definition RETRO_DEVICE_ID_JOYPAD_R2 : Z := 13.
Definition RETRO_DEVICE_ID_JOYPAD_L3 : Z := 14.
Definition RETRO_DEVICE_ID_JOYPAD_R3 : Z := 15.
Definition RETRO_DEVICE_ID_JOYPAD_MASK : Z := 256.

Definition joypad_buttons : list define :=
  [ mkdef "RETRO_DEVICE_ID_JOYPAD_B" RETRO_DEVICE_ID_JOYPAD_B;
    mkdef "RETRO_DEVICE_ID_JOYPAD_Y" RETRO_DEVICE_ID_JOYPAD_Y;
    mkdef "RETRO_DEVICE_ID_JOYPAD_SELECT" RETRO_DEVICE_ID_JOYPAD_SELECT;
    mkdef "RETRO_DEVICE_ID_JOYPAD_START" RETRO_DEVICE_ID_JOYPAD_START;
    mkdef "RETRO_DEVICE_ID_JOYPAD_UP" RETRO_DEVICE_ID_JOYPAD_UP;
    mkdef "RETRO_DEVICE_ID_JOYPAD_DOWN" RETRO_DEVICE_ID_JOYPAD_DOWN;
    mkdef "RETRO_DEVICE_ID_JOYPAD_LEFT" RETRO_DEVICE_ID_JOYPAD_LEFT;
    mkdef "RETRO_DEVICE_ID_JOYPAD_RIGHT" RETRO_DEVICE_ID_JOYPAD_RIGHT;
    mkdef "RETRO_DEVICE_ID_JOYPAD_A" RETRO_DEVICE_ID_JOYPAD_A;
    mkdef "RETRO_DEVICE_ID_JOYPAD_X" RETRO_DEVICE_ID_JOYPAD_X;
    mkdef "RETRO_DEVICE_ID_JOYPAD_L" RETRO_DEVICE_ID_JOYPAD_L;
    mkdef "RETRO_DEVICE_ID_JOYPAD_R" RETRO_DEVICE_ID_JOYPAD_R;
    mkdef "RETRO_DEVICE_ID_JOYPAD_L2" RETRO_DEVICE_ID_JOYPAD_L2;
    mkdef "RETRO_DEVICE_ID_JOYPAD_R2" RETRO_DEVICE_ID_JOYPAD_R2;
    mkdef "RETRO_DEVICE_ID_JOYPAD_L3" RETRO_DEVICE_ID_JOYPAD_L3;
    mkdef "RETRO_DEVICE_ID_JOYPAD_R3" RETRO_DEVICE_ID_JOYPAD_R3;
    mkdef "RETRO_DEVICE_ID_JOYPAD_MASK" RETRO_DEVICE_ID_JOYPAD_MASK ].

(** Analog indices *)
Definition analog_indices : list define :=
  [ mkdef "RETRO_DEVICE_INDEX_ANALOG_LEFT" 0;
    mkdef "RETRO_DEVICE_INDEX_ANALOG_RIGHT" 1;
    mkdef "RETRO_DEVICE_ID_ANALOG_X" 0;
    mkdef "RETRO_DEVICE_ID_ANALOG_Y" 1 ].

(** Environment commands, in the order of the header (22 is defined
    before 21). *)
Definition environment_commands : list define :=
  [ mkdef "RETRO_ENVIRONMENT_SET_ROTATION" 1;
    mkdef "RETRO_ENVIRONMENT_GET_OVERSCAN" 2;
    mkdef "RETRO_ENVIRONMENT_GET_CAN_DUPE" 3;
    mkdef "RETRO_ENVIRONMENT_SET_MESSAGE" 6;
    mkdef "RETRO_ENVIRONMENT_SHUTDOWN" 7;
    mkdef "RETRO_ENVIRONMENT_SET_PERFORMANCE_LEVEL" 8;
    mkdef "RETRO_ENVIRONMENT_GET_SYSTEM_DIRECTORY" 9;
    mkdef "RETRO_ENVIRONMENT_SET_PIXEL_FORMAT" 10;
    mkdef "RETRO_ENVIRONMENT_SET_INPUT_DESCRIPTORS" 11;
    mkdef "RETRO_ENVIRONMENT_SET_KEYBOARD_CALLBACK" 12;
    mkdef "RETRO_ENVIRONMENT_SET_DISK_CONTROL_INTERFACE" 13;
    mkdef "RETRO_ENVIRONMENT_SET_HW_RENDER" 14;
    mkdef "RETRO_ENVIRONMENT_GET_VARIABLE" 15;
    mkdef "RETRO_ENVIRONMENT_SET_VARIABLES" 16;
    mkdef "RETRO_ENVIRONMENT_GET_VARIABLE_UPDATE" 17;
    mkdef "RETRO_ENVIRONMENT_SET_SUPPORT_NO_GAME" 18;
    mkdef "RETRO_ENVIRONMENT_GET_LIBRETRO_PATH" 19;
    mkdef "RETRO_ENVIRONMENT_SET_AUDIO_CALLBACK" 22;
    mkdef "RETRO_ENVIRONMENT_SET_FRAME_TIME_CALLBACK" 21;
    mkdef "RETRO_ENVIRONMENT_GET_RUMBLE_INTERFACE" 23;
    mkdef "RETRO_ENVIRONMENT_GET_INPUT_DEVICE_CAPABILITIES" 24;
    mkdef "RETRO_ENVIRONMENT_GET_LOG_INTERFACE" 27;
    mkdef "RETRO_ENVIRONMENT_GET_PERF_INTERFACE" 28;
    mkdef "RETRO_ENVIRONMENT_GET_LOCATION_INTERFACE" 29;
    mkdef "RETRO_ENVIRONMENT_GET_CORE_ASSETS_DIRECTORY" 30;
    mkdef "RETRO_ENVIRONMENT_GET_SAVE_DIRECTORY" 31;
    mkdef "RETRO_ENVIRONMENT_SET_SYSTEM_AV_INFO" 32;
    mkdef "RETRO_ENVIRONMENT_SET_PROC_ADDRESS_CALLBACK" 33;
    mkdef "RETRO_ENVIRONMENT_SET_SUBSYSTEM_INFO" 34;
    mkdef "RETRO_ENVIRONMENT_SET_CONTROLLER_INFO" 35;
    mkdef "RETRO_ENVIRONMENT_SET_MEMORY_MAPS" 36;
    mkdef "RETRO_ENVIRONMENT_SET_GEOMETRY" 37;
    mkdef "RETRO_ENVIRONMENT_GET_USERNAME" 38;
    mkdef "RETRO_ENVIRONMENT_GET_LANGUAGE" 39;
    mkdef "RETRO_ENVIRONMENT_GET_CURRENT_SOFTWARE_FRAMEBUFFER" 40;
    mkdef "RETRO_ENVIRONMENT_GET_HW_RENDER_INTERFACE" 41;
    mkdef "RETRO_ENVIRONMENT_SET_SUPPORT_ACHIEVEMENTS" 42;
    mkdef "RETRO_ENVIRONMENT_SET_HW_RENDER_CONTEXT_NEGOTIATION_INTERFACE" 43;
    mkdef "RETRO_ENVIRONMENT_SET_SERIALIZATION_QUIRKS" 44;
    mkdef "RETRO_ENVIRONMENT_GET_VFS_INTERFACE" 45;
    mkdef "RETRO_ENVIRONMENT_GET_LED_INTERFACE" 46;
    mkdef "RETRO_ENVIRONMENT_GET_AUDIO_VIDEO_ENABLE" 47;
    mkdef "RETRO_ENVIRONMENT_GET_MIDI_INTERFACE" 48;
    mkdef "RETRO_ENVIRONMENT_GET_FASTFORWARDING" 49;
    mkdef "RETRO_ENVIRONMENT_GET_TARGET_REFRESH_RATE" 50;
    mkdef "RETRO_ENVIRONMENT_GET_INPUT_BITMASKS" 51;
    mkdef "RETRO_ENVIRONMENT_GET_CORE_OPTIONS_VERSION" 52;
    mkdef "RETRO_ENVIRONMENT_SET_CORE_OPTIONS" 53;
    mkdef "RETRO_ENVIRONMENT_SET_CORE_OPTIONS_INTL" 54;
    mkdef "RETRO_ENVIRONMENT_SET_CORE_OPTIONS_DISPLAY" 55;
    mkdef "RETRO_ENVIRONMENT_GET_PREFERRED_HW_RENDER" 56;
    mkdef "RETRO_ENVIRONMENT_GET_DISK_CONTROL_INTERFACE_VERSION" 57;
    mkdef "RETRO_ENVIRONMENT_SET_DISK_CONTROL_EXT_INTERFACE" 58;
    mkdef "RETRO_ENVIRONMENT_GET_MESSAGE_INTERFACE_VERSION" 59;
    mkdef "RETRO_ENVIRONMENT_SET_MESSAGE_EXT" 60;
    mkdef "RETRO_ENVIRONMENT_GET_INPUT_MAX_USERS" 61;
    mkdef "RETRO_ENVIRONMENT_SET_AUDIO_BUFFER_STATUS_CALLBACK" 62;
    mkdef "RETRO_ENVIRONMENT_SET_MINIMUM_AUDIO_LATENCY" 63;
    mkdef "RETRO_ENVIRONMENT_SET_FASTFORWARDING_OVERRIDE" 64;
    mkdef "RETRO_ENVIRONMENT_SET_CONTENT_INFO_OVERRIDE" 65;
    mkdef "RETRO_ENVIRONMENT_GET_GAME_INFO_EXT" 66;
    mkdef "RETRO_ENVIRONMENT_SET_CORE_OPTIONS_V2" 67;
    mkdef "RETRO_ENVIRONMENT_SET_CORE_OPTIONS_V2_INTL" 68;
    mkdef "RETRO_ENVIRONMENT_SET_CORE_OPTIONS_UPDATE_DISPLAY_CALLBACK" 69;
    mkdef "RETRO_ENVIRONMENT_SET_VARIABLE" 70;
    mkdef "RETRO_ENVIRONMENT_GET_THROTTLE_STATE" 71 ].

(** Language *)
Definition languages : list define :=
  [ mkdef "RETRO_LANGUAGE_ENGLISH" 0;
    mkdef "RETRO_LANGUAGE_JAPANESE" 1;
    mkdef "RETRO_LANGUAGE_FRENCH" 2;
    mkdef "RETRO_LANGUAGE_SPANISH" 3;
    mkdef "RETRO_LANGUAGE_GERMAN" 4;
    mkdef "RETRO_LANGUAGE_ITALIAN" 5;
    mkdef "RETRO_LANGUAGE_DUTCH" 6;
    mkdef "RETRO_LANGUAGE_PORTUGUESE_BRAZIL" 7;
    mkdef "RETRO_LANGUAGE_PORTUGUESE_PORTUGAL" 8;
    mkdef "RETRO_LANGUAGE_RUSSIAN" 9;
    mkdef "RETRO_LANGUAGE_KOREAN" 10;
    mkdef "RETRO_LANGUAGE_CHINESE_TRADITIONAL" 11;
    mkdef "RETRO_LANGUAGE_CHINESE_SIMPLIFIED" 12 ].

(** Memory types *)
Definition RETRO_MEMORY_SAVE_RAM : Z := 0.
Definition RETRO_MEMORY_RTC : Z := 1.
Definition RETRO_MEMORY_SYSTEM_RAM : Z := 2.
Definition RETRO_MEMORY_VIDEO_RAM : Z := 3.

Definition memory_types : list define :=
  [ mkdef "RETRO_MEMORY_SAVE_RAM" RETRO_MEMORY_SAVE_RAM;
    mkdef "RETRO_MEMORY_RTC" RETRO_MEMORY_RTC;
    mkdef "RETRO_MEMORY_SYSTEM_RAM" RETRO_MEMORY_SYSTEM_RAM;
    mkdef "RETRO_MEMORY_VIDEO_RAM" RETRO_MEMORY_VIDEO_RAM ].

(** Region *)
Definition RETRO_REGION_NTSC : Z := 0.
Definition RETRO_REGION_PAL : Z := 1.

Definition regions : list define :=
  [ mkdef "RETRO_REGION_NTSC" RETRO_REGION_NTSC;
    mkdef "RETRO_REGION_PAL" RETRO_REGION_PAL ].

(** Every [#define] of the header with a plain integer body, in the order
    of the header.  (The four pixel formats before them carry the suffix [U]
    or are [UINT_MAX] of <limits.h>; no property below is about them.) *)
Definition defines : list define :=
  device_types ++ joypad_buttons ++ analog_indices ++ environment_commands
  ++ languages ++ memory_types ++ regions.

(** Game info passed to retro_load_game() *)
Definition retro_game_info : list field :=
  [ mkfield (Tptr (Tconst Tchar)) "path";
    mkfield (Tptr (Tconst Tvoid)) "data";
    mkfield Tsize_t "size";
    mkfield (Tptr (Tconst Tchar)) "meta" ].

(** Callbacks set by frontend *)
Definition retro_environment_t : callback :=
  mkcb T_Bool "retro_environment_t"
       [named Tunsigned "cmd"; named (Tptr Tvoid) "data"].
Definition retro_video_refresh_t : callback :=
  mkcb Tvoid "retro_video_refresh_t"
       [named (Tptr (Tconst Tvoid)) "data"; named Tunsigned "width";
        named Tunsigned "height"; named Tsize_t "pitch"].
Definition retro_audio_sample_t : callback :=
  mkcb Tvoid "retro_audio_sample_t"
       [named Tint16_t "left"; named Tint16_t "right"].
Definition retro_audio_sample_batch_t : callback :=
  mkcb Tsize_t "retro_audio_sample_batch_t"
       [named (Tptr (Tconst Tint16_t)) "data"; named Tsize_t "frames"].
Definition retro_input_poll_t : callback :=
  mkcb Tvoid "retro_input_poll_t" [].
Definition retro_input_state_t : callback :=
  mkcb Tint16_t "retro_input_state_t"
       [named Tunsigned "port"; named Tunsigned "device";
        named Tunsigned "index"; named Tunsigned "id"].

Definition callbacks : list callback :=
  [ retro_environment_t; retro_video_refresh_t; retro_audio_sample_t;
    retro_audio_sample_batch_t; retro_input_poll_t; retro_input_state_t ].

(** Core API functions, in the order of the header. *)
Definition api : list fundecl :=
  [ mkfun Tvoid "retro_set_environment" [anon (Tnamed "retro_environment_t")];
    mkfun Tvoid "retro_set_video_refresh" [anon (Tnamed "retro_video_refresh_t")];
    mkfun Tvoid "retro_set_audio_sample" [anon (Tnamed "retro_audio_sample_t")];
    mkfun Tvoid "retro_set_audio_sample_batch"
          [anon (Tnamed "retro_audio_sample_batch_t")];
    mkfun Tvoid "retro_set_input_poll" [anon (Tnamed "retro_input_poll_t")];
    mkfun Tvoid "retro_set_input_state" [anon (Tnamed "retro_input_state_t")];

    mkfun Tvoid "retro_init" [];
    mkfun Tvoid "retro_deinit" [];

    mkfun Tunsigned "retro_api_version" [];

    mkfun Tvoid "retro_get_system_info"
          [named (Tptr (Tstruct "retro_system_info")) "info"];
    mkfun Tvoid "retro_get_system_av_info"
          [named (Tptr (Tstruct "retro_system_av_info")) "info"];

    mkfun Tvoid "retro_set_controller_port_device"
          [named Tunsigned "port"; named Tunsigned "device"];

    mkfun Tvoid "retro_reset" [];
    mkfun Tvoid "retro_run" [];

    mkfun Tsize_t "retro_serialize_size" [];
    mkfun T_Bool "retro_serialize" [named (Tptr Tvoid) "data"; named Tsize_t "size"];
    mkfun T_Bool "retro_unserialize"
          [named (Tptr (Tconst Tvoid)) "data"; named Tsize_t "size"];

    mkfun Tvoid "retro_cheat_reset" [];
    mkfun Tvoid "retro_cheat_set"
          [named Tunsigned "index"; named T_Bool "enabled";
           named (Tptr (Tconst Tchar)) "code"];

    mkfun T_Bool "retro_load_game"
          [named (Tptr (Tconst (Tstruct "retro_game_info"))) "game"];
    mkfun T_Bool "retro_load_game_special"
          [named Tunsigned "game_type";
           named (Tptr (Tconst (Tstruct "retro_game_info"))) "info";
           named Tsize_t "num_info"];
    mkfun Tvoid "retro_unload_game" [];

    mkfun Tunsigned "retro_get_region" [];

    mkfun (Tptr Tvoid) "retro_get_memory_data" [named Tunsigned "id"];
    mkfun Tsize_t "retro_get_memory_size" [named Tunsigned "id"] ].

(** Mutually exlusive pixel formats.  The suffix [U] makes the literals
    [unsigned]; [UINT_MAX] comes from <limits.h>. *)
Definition pixel_formats (UINT_MAX : Z) : list define :=
  [ mkdef "RETRO_PIXEL_FORMAT_0RGB1555" 0;
    mkdef "RETRO_PIXEL_FORMAT_XRGB8888" 1;
    mkdef "RETRO_PIXEL_FORMAT_RGB565" 2;
    mkdef "RETRO_PIXEL_FORMAT_UNKNOWN" UINT_MAX ].

(** Log levels.  [INT_MAX] comes from <limits.h>. *)
Definition retro_log_level (INT_MAX : Z) : list enumerator :=
  [ mkenum "RETRO_LOG_DEBUG" (Some 0%Z);
    mkenum "RETRO_LOG_INFO" None;
    mkenum "RETRO_LOG_WARN" None;
    mkenum "RETRO_LOG_ERROR" None;
    mkenum "RETRO_LOG_DUMMY" (Some INT_MAX) ].









End Libretro.

(** ** static_cores.h *)

Module StaticCores.

(** The macro to declare all libretro functions for a core.  [PREFIX##_x]
    pastes the argument in front of [_x]. *)
Definition DECLARE_LIBRETRO_CORE (PREFIX : string) : list fundecl :=
  [ mkfun Tvoid (PREFIX ++ "_retro_init") [];
    mkfun Tvoid (PREFIX ++ "_retro_deinit") [];
    mkfun Tunsigned (PREFIX ++ "_retro_api_version") [];
    mkfun Tvoid (PREFIX ++ "_retro_get_system_info")
          [named (Tptr (Tstruct "retro_system_info")) "info"];
    mkfun Tvoid (PREFIX ++ "_retro_get_system_av_info")
          [named (Tptr (Tstruct "retro_system_av_info")) "info"];
    mkfun Tvoid (PREFIX ++ "_retro_set_environment")
          [anon (Tnamed "retro_environment_t")];
    mkfun Tvoid (PREFIX ++ "_retro_set_video_refresh")
          [anon (Tnamed "retro_video_refresh_t")];
    mkfun Tvoid (PREFIX ++ "_retro_set_audio_sample")
          [anon (Tnamed "retro_audio_sample_t")];
    mkfun Tvoid (PREFIX ++ "_retro_set_audio_sample_batch")
          [anon (Tnamed "retro_audio_sample_batch_t")];
    mkfun Tvoid (PREFIX ++ "_retro_set_input_poll")
          [anon (Tnamed "retro_input_poll_t")];
    mkfun Tvoid (PREFIX ++ "_retro_set_input_state")
          [anon (Tnamed "retro_input_state_t")];
    mkfun Tvoid (PREFIX ++ "_retro_reset") [];
    mkfun Tvoid (PREFIX ++ "_retro_run") [];
    mkfun Tbool (PREFIX ++ "_retro_load_game")
          [named (Tptr (Tconst (Tstruct "retro_game_info"))) "game"];
    mkfun Tbool (PREFIX ++ "_retro_load_game_special")
          [named Tunsigned "game_type";
           named (Tptr (Tconst (Tstruct "retro_game_info"))) "info";
           named Tsize_t "num_info"];
    mkfun Tvoid (PREFIX ++ "_retro_unload_game") [];
    mkfun Tsize_t (PREFIX ++ "_retro_serialize_size") [];
    mkfun Tbool (PREFIX ++ "_retro_serialize")
          [named (Tptr Tvoid) "data"; named Tsize_t "size"];
    mkfun Tbool (PREFIX ++ "_retro_unserialize")
          [named (Tptr (Tconst Tvoid)) "data"; named Tsize_t "size"];
    mkfun (Tptr Tvoid) (PREFIX ++ "_retro_get_memory_data") [named Tunsigned "id"];
    mkfun Tsize_t (PREFIX ++ "_retro_get_memory_size") [named Tunsigned "id"];
    mkfun Tunsigned (PREFIX ++ "_retro_get_region") [];
    mkfun Tvoid (PREFIX ++ "_retro_cheat_reset") [];
    mkfun Tvoid (PREFIX ++ "_retro_cheat_set")
          [named Tunsigned "index"; named Tbool "enabled";
           named (Tptr (Tconst Tchar)) "code"];
    mkfun Tvoid (PREFIX ++ "_retro_set_controller_port_device")
          [named Tunsigned "port"; named Tunsigned "device"] ].

(** Core declarations: the arguments of the eight uses of the macro, in the
    order of the header. *)
Definition core_declarations : list string :=
  [ "fceumm";            (* FCEUmm (NES) *)
    "gambatte";          (* Gambatte (GB/GBC) *)
    "mgba";              (* mGBA (GBA) *)
    "clownmdemu";        (* ClownMDEmu (Genesis/Mega Drive) *)
    "melonds";           (* melonDS (NDS) *)
    "mupen64plus_next";  (* Mupen64Plus-Next (N64) *)
    "pcsx_rearmed";      (* PCSX ReARMed (PS1) *)
    "bsnes" ].           (* bsnes (SNES) *)

(** The prototypes the header declares: every use of the macro expanded. *)
Definition declarations : list fundecl :=
  flat_map DECLARE_LIBRETRO_CORE core_declarations.

End StaticCores.

(** ** Reading the tables *)

Definition values (l : list define) : list Z := map d_value l.

(** The defines whose name starts with [p], e.g. every [RETRO_MEMORY_*]. *)
Definition with_prefix (p : string) (l : list define) : list define :=
  filter (fun d => String.prefix p (d_name d)) l.

(** What the preprocessor replaces the identifier [x] by. *)
Definition lookup (l : list define) (x : string) : option Z :=
  option_map d_value (find (fun d => String.eqb (d_name d) x) l).

Definition memZ (n : Z) (l : list Z) : bool := existsb (Z.eqb n) l.

Fixpoint distinctb (l : list Z) : bool :=
  match l with
  | [] => true
  | x :: l' => negb (memZ x l') && distinctb l'
  end.

(** The integers from [a] on, [len] of them. *)
Definition Zrange (a : Z) (len : nat) : list Z :=
  map (fun k => (a + Z.of_nat k)%Z) (seq 0 len).

(** The integers between 1 and 71 that no environment command is defined as. *)
Definition environment_gaps : list Z := [4; 5; 20; 25; 26]%Z.

(** The sixteen buttons, without the trailing [RETRO_DEVICE_ID_JOYPAD_MASK]. *)
Definition joypad_button_ids : list define := removelast Libretro.joypad_buttons.

(** ** Prototypes of the base API against the per-core prototypes *)

Definition param_types (f : fundecl) : list ctype :=
  map (fun p => expand_stdbool (p_type p)) (fd_params f).

Definition param_names (f : fundecl) : list (option string) :=
  map p_name (fd_params f).

(** Same return type and same parameter types, [bool] read as [_Bool]. *)
Definition same_signature (f g : fundecl) : Prop :=
  expand_stdbool (fd_ret f) = expand_stdbool (fd_ret g) /\
  param_types f = param_types g.

Definition same_signatureb (f g : fundecl) : bool :=
  ctype_eqb (expand_stdbool (fd_ret f)) (expand_stdbool (fd_ret g)) &&
  list_eqb ctype_eqb (param_types f) (param_types g).

(** The name [PREFIX_retro_...] that goes with a base prototype. *)
Definition prefixed (PREFIX : string) (f : fundecl) : string :=
  PREFIX ++ "_" ++ fd_name f.

(** The prototypes of [l] that carry the prefixed name of [f]. *)
Definition counterparts_in (l : list fundecl) (PREFIX : string) (f : fundecl)
  : list fundecl :=
  filter (fun g => String.eqb (fd_name g) (prefixed PREFIX f)) l.

Definition counterparts : string -> fundecl -> list fundecl :=
  counterparts_in StaticCores.declarations.

Definition one_counterpartb (l : list fundecl) (PREFIX : string) (f : fundecl)
  : bool :=
  match counterparts_in l PREFIX f with
  | [g] => same_signatureb f g
  | _ => false
  end.

(** [g] is the prefixed form of some base prototype, for some core. *)
Definition has_baseb (g : fundecl) : bool :=
  existsb (fun PREFIX =>
             existsb (fun f => String.eqb (fd_name g) (prefixed PREFIX f))
                     Libretro.api)
          StaticCores.core_declarations.

(** A prototype with [PREFIX] pasted in front of its name. *)
Definition paste (PREFIX : string) (g : fundecl) : fundecl :=
  mkfun (fd_ret g) (PREFIX ++ fd_name g) (fd_params g).

(** The return type a function or callback of libretro.h is declared with. *)
Definition declared_return (x : string) : option ctype :=
  match find (fun f => String.eqb (fd_name f) x) Libretro.api with
  | Some f => Some (fd_ret f)
  | None =>
      option_map cb_ret
        (find (fun c => String.eqb (cb_name c) x) Libretro.callbacks)
  end.

(** Modelled from the spec: how the caller of a boolean call reads its
    result (section 7, "callers must treat false as operation not
    performed"); the calling code, the frontend, is not among the two
    headers. *)
Inductive call_status : Type := performed | not_performed.

Definition caller_reading (r : bool) : call_status :=
  if r then performed else not_performed.

(** ** Enumerators

    The value of an enumerator is its initialiser, or one more than the
    value of the enumerator before it, or 0 for the first. *)
Fixpoint enum_values (next : Z) (es : list enumerator) : list define :=
  match es with
  | [] => []
  | e :: es' =>
      let v := match e_init e with Some z => z | None => next end in
      mkdef (e_name e) v :: enum_values (v + 1) es'
  end.

(** A table whose k-th define has the value k. *)
Definition dense_from_zero (l : list define) : Prop :=
  values l = Zrange 0 (List.length l).

(** ** Type names: where they are declared and where they are used *)











(** ** Names after pasting *)

(** [a] is the end of [b]. *)
Fixpoint is_suffixb (a b : string) : bool :=
  String.eqb a b ||
  match b with
  | EmptyString => false
  | String _ b' => is_suffixb a b'
  end.

(** The names the macro pastes its argument in front of. *)
Definition macro_suffixes : list string :=
  map fd_name (StaticCores.DECLARE_LIBRETRO_CORE "").

(** Every function name of a translation unit that includes libretro.h and
    uses the macro once for each of [prefixes]. *)
Definition function_names (prefixes : list string) : list string :=
  (map fd_name Libretro.api
   ++ map fd_name (flat_map StaticCores.DECLARE_LIBRETRO_CORE prefixes))%list.

(** ** Callbacks and the functions that take them *)

Definition takes (x : string) (f : fundecl) : bool :=
  existsb (fun p => ctype_eqb (p_type p) (Tnamed x)) (fd_params f).

(** The prototypes of [l] with a parameter of the callback type [c]. *)
Definition setters_in (l : list fundecl) (c : callback) : list fundecl :=
  filter (takes (cb_name c)) l.

(** [retro_set_x] for the callback type [retro_x_t]. *)
Definition setter_name (c : callback) : string :=
  "retro_set_" ++ substring 6 (String.length (cb_name c) - 8) (cb_name c).

(** ** The layout of a struct of scalars

    The headers fix the members of a struct and their order; the widths of
    a pointer, of [size_t] and of [unsigned] belong to the platform.  The
    layout below is the usual one of the C ABIs: members in declaration
    order, each at the next offset that is a multiple of its size, integers
    and addresses little-endian. *)

Module Layout.

Open Scope Z_scope.

Record data_model : Type :=
  mkdm { sizeof_pointer : nat; sizeof_size_t : nat; sizeof_unsigned : nat }.

Definition LP64 : data_model := mkdm 8 8 4.
Definition ILP32 : data_model := mkdm 4 4 4.

(** Size in bytes of a scalar member; 0 for what is not laid out here. *)
Fixpoint sizeof (dm : data_model) (t : ctype) : nat :=
  match t with
  | Tptr _ => sizeof_pointer dm
  | Tsize_t => sizeof_size_t dm
  | Tunsigned => sizeof_unsigned dm
  | Tint16_t => 2
  | T_Bool | Tbool | Tchar => 1
  | Tconst t' => sizeof dm t'
  | _ => 0
  end.

(** Bytes skipped at offset [off] to reach a multiple of [a]. *)
Definition padding (off a : nat) : nat := ((a - off mod a) mod a)%nat.

(** [n] bytes of [v], least significant first. *)
Fixpoint le_bytes (n : nat) (v : Z) : list Z :=
  match n with
  | O => []
  | S n' => v mod 256 :: le_bytes n' (v / 256)
  end.

Fixpoint le_value (bs : list Z) : Z :=
  match bs with
  | [] => 0
  | b :: bs' => b + 256 * le_value bs'
  end.

(** The image of the members [fs] holding [vs], from offset [off] on. *)
Fixpoint store (dm : data_model) (off : nat) (fs : list field) (vs : list Z)
  : list Z :=
  match fs, vs with
  | f :: fs', v :: vs' =>
      let n := sizeof dm (f_type f) in
      let pad := padding off n in
      repeat 0 pad ++ le_bytes n v ++ store dm (off + pad + n) fs' vs'
  | _, _ => []
  end.

(** The members [fs] read back from an image that starts at offset [off]. *)
Fixpoint load (dm : data_model) (off : nat) (fs : list field) (bs : list Z)
  : list Z :=
  match fs with
  | [] => []
  | f :: fs' =>
      let n := sizeof dm (f_type f) in
      let pad := padding off n in
      le_value (firstn n (skipn pad bs))
      :: load dm (off + pad + n) fs' (skipn (pad + n) bs)
  end.

(** The offsets of the members. *)
Fixpoint offsets (dm : data_model) (off : nat) (fs : list field) : list nat :=
  match fs with
  | [] => []
  | f :: fs' =>
      let n := sizeof dm (f_type f) in
      let pad := padding off n in
      (off + pad)%nat :: offsets dm (off + pad + n) fs'
  end.

(** [fs] can hold [vs]: one value per member, each within the member's
    width. *)
Fixpoint fits (dm : data_model) (fs : list field) (vs : list Z) : Prop :=
  match fs, vs with
  | [], [] => True
  | f :: fs', v :: vs' =>
      0 <= v < 256 ^ Z.of_nat (sizeof dm (f_type f)) /\ fits dm fs' vs'
  | _, _ => False
  end.

(** A value of [struct retro_game_info]: two addresses, a size, an
    address. *)
Record game_info : Type :=
  mkgame { path : Z; data : Z; size : Z; meta : Z }.

Definition members (g : game_info) : list Z := [path g; data g; size g; meta g].

Definition of_members (vs : list Z) : option game_info :=
  match vs with
  | [p; d; s; m] => Some (mkgame p d s m)
  | _ => None
  end.

Definition store_game_info (dm : data_model) (g : game_info) : list Z :=
  store dm 0 Libretro.retro_game_info (members g).

Definition load_game_info (dm : data_model) (bs : list Z) : option game_info :=
  of_members (load dm 0 Libretro.retro_game_info bs).

(** A populated value the data model can hold. *)
Definition representable (dm : data_model) (g : game_info) : Prop :=
  fits dm Libretro.retro_game_info (members g).

End Layout.

(** * Properties *)

(** ** The boolean checks decide what they are named after *)

Section Checks.

Open Scope Z_scope.

Lemma memZ_In (n : Z) (l : list Z) : memZ n l = true <-> In n l.
Proof.
  unfold memZ. rewrite existsb_exists. split.
  - intros [x [Hx Heq]]. apply Z.eqb_eq in Heq. now subst.
  - intros H. exists n. split; [assumption | apply Z.eqb_refl].
Qed.

Lemma memZ_not_In (n : Z) (l : list Z) : memZ n l = false <-> ~ In n l.
Proof.
  rewrite <- memZ_In. destruct (memZ n l); split; congruence.
Qed.

Lemma distinctb_NoDup (l : list Z) : distinctb l = true -> NoDup l.
Proof.
  induction l as [|x l IH]; simpl; intros H.
  - constructor.
  - apply andb_prop in H. destruct H as [Hx Hl].
    constructor.
    + apply memZ_not_In. now apply negb_true_iff.
    + now apply IH.
Qed.

Lemma value_of_some_define (l : list define) (n : Z) :
  (exists d, In d l /\ d_value d = n) <-> In n (values l).
Proof.
  unfold values. rewrite in_map_iff.
  split; intros [d [H1 H2]]; exists d; tauto.
Qed.

Lemma Zrange_In (a : Z) (len : nat) (n : Z) :
  In n (Zrange a len) <-> a <= n < a + Z.of_nat len.
Proof.
  unfold Zrange. rewrite in_map_iff. split.
  - intros [k [Hk Hin]]. apply in_seq in Hin. lia.
  - intros H. exists (Z.to_nat (n - a)). split; [lia|].
    apply in_seq. lia.
Qed.

(** A property checked on every integer of a range holds on the range. *)
Lemma Zrange_forallb (p : Z -> bool) (a : Z) (len : nat) :
  forallb p (Zrange a len) = true ->
  forall n, a <= n < a + Z.of_nat len -> p n = true.
Proof.
  intros H n Hn. rewrite forallb_forall in H. apply H. now apply Zrange_In.
Qed.

(** Distinct values: two defines of the table with one value are one
    define. *)
Lemma unique_values_pairwise (l : list define) :
  NoDup (values l) ->
  forall d d', In d l -> In d' l -> d_value d = d_value d' -> d = d'.
Proof.
  unfold values. induction l as [|x l IH]; simpl; intros Hnd d d' Hd Hd' Hv.
  - contradiction.
  - inversion Hnd as [|? ? Hnotin Hnd']; subst.
    destruct Hd as [<-|Hd], Hd' as [<-|Hd'].
    + reflexivity.
    + exfalso. apply Hnotin. rewrite Hv. now apply in_map.
    + exfalso. apply Hnotin. rewrite <- Hv. now apply in_map.
    + now apply IH.
Qed.

End Checks.

(** ** The numeric constants of libretro.h *)

Section Constants.

Import Libretro.
Open Scope Z_scope.

(** The categories are what their names say: selecting the defines of the
    header by the prefix of their name gives the groups of the header. *)
Lemma categories_by_name :
  with_prefix "RETRO_ENVIRONMENT_" defines = environment_commands /\
  with_prefix "RETRO_DEVICE_ID_JOYPAD_" defines = joypad_buttons /\
  with_prefix "RETRO_MEMORY_" defines = memory_types /\
  with_prefix "RETRO_REGION_" defines = regions /\
  with_prefix "RETRO_LANGUAGE_" defines = languages /\
  with_prefix "RETRO_DEVICE_" defines
  = (device_types ++ joypad_buttons ++ analog_indices)%list.
Proof. repeat split. Qed.


(** The values environment commands are defined as: the integers from 1
    to 71 that are not one of 4, 5, 20, 25 and 26. *)
Lemma environment_values_exact (n : Z) :
  In n (values environment_commands) <->
  1 <= n <= 71 /\ ~ In n environment_gaps.
Proof.
  split.
  - intros H.
    assert (Hall : forallb (fun v => (1 <=? v) && (v <=? 71)
                                     && negb (memZ v environment_gaps))
                           (values environment_commands) = true)
      by (vm_compute; reflexivity).
    rewrite forallb_forall in Hall. specialize (Hall n H).
    apply andb_prop in Hall. destruct Hall as [Hr Hg].
    apply andb_prop in Hr. destruct Hr as [H1 H71].
    apply Z.leb_le in H1, H71. apply negb_true_iff, memZ_not_In in Hg.
    tauto.
  - intros [Hr Hg].
    assert (Hall : forallb (fun v => memZ v environment_gaps
                                     || memZ v (values environment_commands))
                           (Zrange 1 71) = true)
      by (vm_compute; reflexivity).
    pose proof (Zrange_forallb _ _ _ Hall n ltac:(lia)) as Hn.
    apply orb_prop in Hn. destruct Hn as [Hn|Hn]; apply memZ_In in Hn.
    + contradiction.
    + assumption.
Qed.

(** C2, as the specification words it, fails: 4 lies between 1 and 71 and no
    environment command is defined as 4 (the header goes from
    [RETRO_ENVIRONMENT_GET_CAN_DUPE], 3, to [RETRO_ENVIRONMENT_SET_MESSAGE],
    6). *)
Lemma environment_id_4_is_not_defined :
  1 <= 4 <= 71 /\
  ~ (exists d, In d environment_commands /\ d_value d = 4).
Proof.
  split; [lia|].
  rewrite value_of_some_define, environment_values_exact.
  intros [_ Hgap]. apply Hgap. simpl. tauto.
Qed.

(** C2, amended: every environment-command constant has a value between 1
    and 71, and every integer between 1 and 71 other than 4, 5, 20, 25 and
    26 is the value of some environment-command constant. *)
Theorem environment_ids_within_1_to_71 :
  (forall d, In d environment_commands -> 1 <= d_value d <= 71) /\
  (forall n, 1 <= n <= 71 -> ~ In n [4; 5; 20; 25; 26] ->
             exists d, In d environment_commands /\ d_value d = n).
Proof.
  split.
  - intros d Hd.
    assert (H : In (d_value d) (values environment_commands))
      by (apply value_of_some_define; now exists d).
    apply environment_values_exact in H. tauto.
  - intros n Hn Hgap. apply value_of_some_define, environment_values_exact.
    split; assumption.
Qed.

Lemma environment_ids_within_1_to_71_witness :
  1 <= d_value (mkdef "RETRO_ENVIRONMENT_SET_AUDIO_CALLBACK" 22) <= 71 /\
  exists d, In d environment_commands /\ d_value d = 21.
Proof.
  split.
  - apply (proj1 environment_ids_within_1_to_71). simpl. tauto.
  - apply (proj2 environment_ids_within_1_to_71 21); [lia|].
    simpl. lia.
Defined.

(** C3: within a category no two constants share a value; for the
    environment commands, the joypad buttons, the device types, the memory
    types and the regions. *)
Theorem constants_unique_within_category :
  NoDup (values environment_commands) /\
  NoDup (values joypad_buttons) /\
  NoDup (values device_types) /\
  NoDup (values memory_types) /\
  NoDup (values regions).
Proof.
  repeat split; apply distinctb_NoDup; vm_compute; reflexivity.
Qed.

(** The group under the comment "Analog indices" holds two families, the
    analog sticks and the axes; each is free of duplicates, the group as a
    whole is not (LEFT and X are both 0). *)
Remark analog_indices_by_family :
  NoDup (values (with_prefix "RETRO_DEVICE_INDEX_ANALOG_" defines)) /\
  NoDup (values (with_prefix "RETRO_DEVICE_ID_ANALOG_" defines)) /\
  ~ NoDup (values analog_indices).
Proof.
  split; [|split]; try (apply distinctb_NoDup; vm_compute; reflexivity).
  intros H. inversion H as [|? ? Hnotin _]. apply Hnotin. simpl. tauto.
Qed.

(** C4: the memory types are 0, 1, 2, 3 in the order SAVE_RAM, RTC,
    SYSTEM_RAM, VIDEO_RAM, the regions 0, 1 in the order NTSC, PAL, and the
    header defines no other [RETRO_MEMORY_*] or [RETRO_REGION_*]. *)
Theorem memory_and_region_ids :
  (RETRO_MEMORY_SAVE_RAM = 0 /\ RETRO_MEMORY_RTC = 1 /\
   RETRO_MEMORY_SYSTEM_RAM = 2 /\ RETRO_MEMORY_VIDEO_RAM = 3) /\
  (lookup defines "RETRO_MEMORY_SAVE_RAM" = Some 0 /\
   lookup defines "RETRO_MEMORY_RTC" = Some 1 /\
   lookup defines "RETRO_MEMORY_SYSTEM_RAM" = Some 2 /\
   lookup defines "RETRO_MEMORY_VIDEO_RAM" = Some 3 /\
   lookup defines "RETRO_REGION_NTSC" = Some 0 /\
   lookup defines "RETRO_REGION_PAL" = Some 1) /\
  map (fun d => (d_name d, d_value d)) (with_prefix "RETRO_MEMORY_" defines)
  = [ ("RETRO_MEMORY_SAVE_RAM", 0); ("RETRO_MEMORY_RTC", 1);
      ("RETRO_MEMORY_SYSTEM_RAM", 2); ("RETRO_MEMORY_VIDEO_RAM", 3) ] /\
  (RETRO_REGION_NTSC = 0 /\ RETRO_REGION_PAL = 1) /\
  map (fun d => (d_name d, d_value d)) (with_prefix "RETRO_REGION_" defines)
  = [ ("RETRO_REGION_NTSC", 0); ("RETRO_REGION_PAL", 1) ].
Proof. repeat split. Qed.

(** C9: 66 environment commands are defined, each with a value between 1
    and 71, and none of them is 4, 5, 20, 25 or 26. *)
Theorem environment_commands_have_gaps :
  List.length environment_commands = 66%nat /\
  Forall (fun d => 1 <= d_value d <= 71) environment_commands /\
  Forall (fun n => ~ exists d, In d environment_commands /\ d_value d = n)
         [4; 5; 20; 25; 26].
Proof.
  split; [reflexivity|]. split.
  - apply Forall_forall. intros d Hd.
    assert (H : In (d_value d) (values environment_commands))
      by (apply value_of_some_define; now exists d).
    apply environment_values_exact in H. tauto.
  - apply Forall_forall. intros n Hn.
    rewrite value_of_some_define, environment_values_exact.
    intros [_ Hgap]. exact (Hgap Hn).
Qed.

(** C10: the sixteen buttons B to R3 are 0 to 15, one after the other;
    MASK is 256, not among them; a joypad id is below 16 or it is 256. *)
Theorem joypad_ids_contiguous_and_mask :
  joypad_buttons
  = (joypad_button_ids ++ [mkdef "RETRO_DEVICE_ID_JOYPAD_MASK" 256])%list /\
  List.length joypad_button_ids = 16%nat /\
  values joypad_button_ids = Zrange 0 16 /\
  (forall n, In n (values joypad_button_ids) <-> 0 <= n <= 15) /\
  RETRO_DEVICE_ID_JOYPAD_B = 0 /\
  RETRO_DEVICE_ID_JOYPAD_R3 = 15 /\
  RETRO_DEVICE_ID_JOYPAD_MASK = 256 /\
  ~ 0 <= RETRO_DEVICE_ID_JOYPAD_MASK <= 15 /\
  Forall (fun d => 0 <= d_value d < 16 \/ d_value d = 256) joypad_buttons.
Proof.
  assert (Hv : values joypad_button_ids = Zrange 0 16) by reflexivity.
  split; [reflexivity|]. split; [reflexivity|]. split; [exact Hv|].
  split.
  { intros n. rewrite Hv, Zrange_In. simpl. lia. }
  split; [reflexivity|]. split; [reflexivity|]. split; [reflexivity|].
  split.
  { unfold RETRO_DEVICE_ID_JOYPAD_MASK. lia. }
  apply Forall_forall. intros d Hd.
  assert (Hall : forallb (fun d => (0 <=? d_value d) && (d_value d <? 16)
                                   || (d_value d =? 256))
                         joypad_buttons = true) by reflexivity.
  rewrite forallb_forall in Hall. specialize (Hall d Hd).
  apply orb_prop in Hall. destruct Hall as [H|H].
  - apply andb_prop in H. destruct H as [H0 H16].
    apply Z.leb_le in H0. apply Z.ltb_lt in H16. left. lia.
  - apply Z.eqb_eq in H. right. assumption.
Qed.

End Constants.

(** ** The prototypes of static_cores.h against those of libretro.h *)

Section Prototypes.

Import Libretro StaticCores.

Lemma ctype_eqb_eq (a b : ctype) : ctype_eqb a b = true -> a = b.
Proof.
  revert b. induction a; destruct b; simpl; intros H;
    try discriminate; try reflexivity;
    try (apply String.eqb_eq in H; now subst);
    f_equal; now apply IHa.
Qed.

Lemma list_eqb_eq {A : Type} (eqb : A -> A -> bool) :
  (forall x y, eqb x y = true -> x = y) ->
  forall l l', list_eqb eqb l l' = true -> l = l'.
Proof.
  intros Heqb. induction l as [|x l IH]; destruct l' as [|y l']; simpl;
    intros H; try discriminate; [reflexivity|].
  apply andb_prop in H. destruct H as [Hxy Hl].
  f_equal; [now apply Heqb | now apply IH].
Qed.

Lemma same_signatureb_sound (f g : fundecl) :
  same_signatureb f g = true -> same_signature f g.
Proof.
  unfold same_signatureb, same_signature. intros H.
  apply andb_prop in H. destruct H as [Hr Hp]. split.
  - now apply ctype_eqb_eq.
  - now apply (list_eqb_eq ctype_eqb ctype_eqb_eq).
Qed.

Lemma one_counterpartb_sound (l : list fundecl) (PREFIX : string) (f : fundecl) :
  one_counterpartb l PREFIX f = true ->
  exists g, counterparts_in l PREFIX f = [g] /\ same_signature f g.
Proof.
  unfold one_counterpartb.
  destruct (counterparts_in l PREFIX f) as [|g [|g' rest]]; try discriminate.
  intros H. exists g. split; [reflexivity | now apply same_signatureb_sound].
Qed.

Lemma has_baseb_sound (g : fundecl) :
  has_baseb g = true ->
  exists PREFIX f,
    In PREFIX core_declarations /\ In f api /\ fd_name g = prefixed PREFIX f.
Proof.
  unfold has_baseb. intros H.
  apply existsb_exists in H. destruct H as [PREFIX [HP H]].
  apply existsb_exists in H. destruct H as [f [Hf H]].
  apply String.eqb_eq in H. now exists PREFIX, f.
Qed.

(** Pasting one prefix in front of two names keeps them as different as
    they were. *)
Lemma append_eqb_l (p a b : string) :
  String.eqb (p ++ a) (p ++ b) = String.eqb a b.
Proof.
  induction p as [|c p IH]; simpl; [reflexivity|].
  now rewrite Ascii.eqb_refl.
Qed.

(** The expansion for [PREFIX] is the body of the macro with [PREFIX]
    pasted in front of every name. *)
Lemma macro_expansion (PREFIX : string) :
  DECLARE_LIBRETRO_CORE PREFIX = map (paste PREFIX) (DECLARE_LIBRETRO_CORE "").
Proof. reflexivity. Qed.

Lemma filter_map_paste (PREFIX x : string) (l : list fundecl) :
  filter (fun g => String.eqb (fd_name g) (PREFIX ++ x)) (map (paste PREFIX) l)
  = map (paste PREFIX) (filter (fun g => String.eqb (fd_name g) x) l).
Proof.
  induction l as [|g l IH]; simpl; [reflexivity|].
  rewrite append_eqb_l, IH. now destruct (String.eqb (fd_name g) x).
Qed.

(** X1: the macro on its own, for any argument: each prototype of the base API
    has one prototype in the expansion that carries its prefixed name, with
    the same return type, the same parameter types and the same parameter
    names; and the expansion has as many prototypes as the base API. *)
Lemma macro_declares_each_once (PREFIX : string) (f : fundecl) :
  In f api ->
  exists g,
    counterparts_in (DECLARE_LIBRETRO_CORE PREFIX) PREFIX f = [g] /\
    same_signature f g /\ param_names f = param_names g.
Proof.
  intros Hin. unfold counterparts_in, prefixed.
  rewrite macro_expansion, filter_map_paste.
  unfold api in Hin.
  repeat (destruct Hin as [<-|Hin];
          [ eexists; split; [reflexivity | split; [split|]; reflexivity] | ]).
  contradiction.
Qed.

Lemma macro_size (PREFIX : string) :
  List.length (DECLARE_LIBRETRO_CORE PREFIX) = List.length api.
Proof. reflexivity. Qed.

(** C1: libretro.h declares 25 functions, [retro_set_environment] to
    [retro_get_memory_size]; for each of them and each core prefix used in
    static_cores.h, that header declares exactly one function of the
    prefixed name, and it has the return type and the parameter types of
    the base function, [bool] read as [_Bool]; and every function that
    static_cores.h declares is the prefixed form of a base function. *)
Theorem per_core_counterparts :
  (List.length api = 25 /\
   option_map fd_name (hd_error api) = Some "retro_set_environment" /\
   fd_name (last api (mkfun Tvoid "" [])) = "retro_get_memory_size") /\
  (forall PREFIX f,
      In PREFIX core_declarations -> In f api ->
      exists g, counterparts PREFIX f = [g] /\ same_signature f g) /\
  (forall g,
      In g declarations ->
      exists PREFIX f,
        In PREFIX core_declarations /\ In f api /\
        fd_name g = prefixed PREFIX f).
Proof.
  split; [repeat split|]. split.
  - intros PREFIX f HP Hf.
    assert (Hall : forallb (fun P => forallb (one_counterpartb declarations P) api)
                           core_declarations = true)
      by (vm_compute; reflexivity).
    rewrite forallb_forall in Hall. specialize (Hall PREFIX HP).
    rewrite forallb_forall in Hall. specialize (Hall f Hf).
    now apply one_counterpartb_sound.
  - intros g Hg.
    assert (Hall : forallb has_baseb declarations = true)
      by (vm_compute; reflexivity).
    rewrite forallb_forall in Hall. now apply has_baseb_sound, Hall.
Qed.

Lemma per_core_counterparts_witness :
  exists g,
    counterparts "mupen64plus_next"
                 (mkfun Tvoid "retro_cheat_set"
                        [named Tunsigned "index"; named T_Bool "enabled";
                         named (Tptr (Tconst Tchar)) "code"]) = [g] /\
    same_signature
      (mkfun Tvoid "retro_cheat_set"
             [named Tunsigned "index"; named T_Bool "enabled";
              named (Tptr (Tconst Tchar)) "code"]) g.
Proof.
  apply (proj1 (proj2 per_core_counterparts)).
  - unfold core_declarations. simpl. tauto.
  - unfold api. simpl. tauto.
Defined.

(** C6: the macro is used eight times, once for each of fceumm, gambatte,
    mgba, clownmdemu, melonds, mupen64plus_next, pcsx_rearmed and bsnes, and
    for no other prefix. *)
Theorem core_prefixes_are_the_eight :
  List.length core_declarations = 8 /\
  NoDup core_declarations /\
  (forall p,
      In p core_declarations <->
      p = "fceumm" \/ p = "gambatte" \/ p = "mgba" \/ p = "clownmdemu" \/
      p = "melonds" \/ p = "mupen64plus_next" \/ p = "pcsx_rearmed" \/
      p = "bsnes") /\
  declarations
  = (DECLARE_LIBRETRO_CORE "fceumm" ++ DECLARE_LIBRETRO_CORE "gambatte" ++
     DECLARE_LIBRETRO_CORE "mgba" ++ DECLARE_LIBRETRO_CORE "clownmdemu" ++
     DECLARE_LIBRETRO_CORE "melonds" ++
     DECLARE_LIBRETRO_CORE "mupen64plus_next" ++
     DECLARE_LIBRETRO_CORE "pcsx_rearmed" ++ DECLARE_LIBRETRO_CORE "bsnes")%list.
Proof.
  split; [reflexivity|]. split; [|split].
  - apply (NoDup_count_occ' string_dec). intros p Hp.
    unfold core_declarations in *.
    repeat (destruct Hp as [<-|Hp]; [reflexivity|]). contradiction.
  - intros p. unfold core_declarations. simpl.
    split; intros H; repeat (destruct H as [H|H]; [subst; tauto|]);
      try contradiction; subst; tauto.
  - reflexivity.
Qed.

(** C7: [retro_load_game], [retro_serialize], [retro_unserialize] and the
    callback [retro_environment_t] are declared to return [_Bool]; a caller
    reads the result [false] as the operation not performed. *)
Theorem boolean_results :
  declared_return "retro_load_game" = Some T_Bool /\
  declared_return "retro_serialize" = Some T_Bool /\
  declared_return "retro_unserialize" = Some T_Bool /\
  declared_return "retro_environment_t" = Some T_Bool /\
  (forall r : bool,
      caller_reading r = not_performed <-> r = false).
Proof.
  repeat split; try reflexivity; destruct r; simpl; congruence.
Qed.

End Prototypes.

(** ** The layout of [struct retro_game_info] *)

Section StructLayout.

Import Libretro Layout.
Open Scope Z_scope.

Variable dm : data_model.

Lemma le_bytes_length (n : nat) (v : Z) : List.length (le_bytes n v) = n.
Proof.
  revert v. induction n as [|n IH]; intros v; simpl; [reflexivity|].
  now rewrite IH.
Qed.

Lemma le_bytes_are_bytes (n : nat) (v : Z) :
  Forall (fun b => 0 <= b < 256) (le_bytes n v).
Proof.
  revert v. induction n as [|n IH]; intros v; simpl; constructor.
  - apply Z.mod_pos_bound. lia.
  - apply IH.
Qed.

Lemma le_value_le_bytes (n : nat) (v : Z) :
  0 <= v < 256 ^ Z.of_nat n -> le_value (le_bytes n v) = v.
Proof.
  revert v. induction n as [|n IH]; intros v Hv.
  - simpl in *. lia.
  - cbn [le_bytes le_value].
    rewrite Nat2Z.inj_succ, Z.pow_succ_r in Hv by lia.
    rewrite IH.
    + pose proof (Z.div_mod v 256). lia.
    + split.
      * apply Z.div_pos; lia.
      * apply Z.div_lt_upper_bound; lia.
Qed.

Lemma skipn_repeat_app (k : nat) (bs : list Z) :
  skipn k (repeat 0 k ++ bs) = bs.
Proof. induction k as [|k IH]; simpl; trivial. Qed.

Lemma firstn_le_bytes_app (n : nat) (v : Z) (bs : list Z) :
  firstn n (le_bytes n v ++ bs) = le_bytes n v.
Proof.
  rewrite <- (le_bytes_length n v) at 1.
  rewrite firstn_app, firstn_all, Nat.sub_diag. simpl. apply app_nil_r.
Qed.

Lemma skipn_le_bytes_app (n : nat) (v : Z) (bs : list Z) :
  skipn n (le_bytes n v ++ bs) = bs.
Proof.
  rewrite <- (le_bytes_length n v) at 1.
  rewrite skipn_app, skipn_all, Nat.sub_diag. reflexivity.
Qed.

Lemma skipn_add {A : Type} (a b : nat) (l : list A) :
  skipn (a + b) l = skipn b (skipn a l).
Proof.
  revert l. induction a as [|a IH]; intros l; simpl; [reflexivity|].
  destruct l; [now rewrite skipn_nil | apply IH].
Qed.

(** What is stored is what is loaded, from any offset. *)
Lemma load_store (fs : list field) :
  forall (vs : list Z) (off : nat),
    fits dm fs vs -> load dm off fs (store dm off fs vs) = vs.
Proof.
  induction fs as [|f fs IH]; intros [|v vs] off Hfit; simpl in Hfit;
    try contradiction; [reflexivity|].
  destruct Hfit as [Hv Hfit]. cbn [store load]. cbv zeta.
  rewrite skipn_add, !skipn_repeat_app.
  rewrite firstn_le_bytes_app, skipn_le_bytes_app.
  now rewrite le_value_le_bytes, IH.
Qed.

(** The image is made of bytes. *)
Lemma store_bytes (fs : list field) :
  forall (vs : list Z) (off : nat),
    Forall (fun b => 0 <= b < 256) (store dm off fs vs).
Proof.
  induction fs as [|f fs IH]; intros [|v vs] off; simpl; try constructor.
  apply Forall_app. split.
  - clear. induction (padding off (sizeof dm (f_type f))); simpl;
      constructor; [lia | assumption].
  - apply Forall_app. split; [apply le_bytes_are_bytes | apply IH].
Qed.

Lemma game_info_round_trip (g : game_info) :
  representable dm g -> load_game_info dm (store_game_info dm g) = Some g.
Proof.
  intros Hg. unfold load_game_info, store_game_info.
  rewrite load_store by exact Hg. now destruct g.
Qed.

End StructLayout.

Section GameInfo.

Import Libretro Layout.
Open Scope Z_scope.

(** Under LP64 the four members sit at 0, 8, 16 and 24; under ILP32
    at 0, 4, 8 and 12. *)
Example retro_game_info_offsets :
  offsets LP64 0 retro_game_info = [0; 8; 16; 24]%nat /\
  offsets ILP32 0 retro_game_info = [0; 4; 8; 12]%nat.
Proof. split; reflexivity. Qed.

(** C5: [struct retro_game_info] has the four members path, data, size and
    meta, in this order, of type pointer to char, pointer to void, [size_t]
    and pointer to char (all three pointers to [const]); and a populated
    value stored with this layout and loaded again is the same value, member
    by member. *)
Theorem retro_game_info_layout :
  map f_name retro_game_info = ["path"; "data"; "size"; "meta"] /\
  map f_type retro_game_info
  = [Tptr (Tconst Tchar); Tptr (Tconst Tvoid); Tsize_t; Tptr (Tconst Tchar)] /\
  map (fun f => strip_const (f_type f)) retro_game_info
  = [Tptr Tchar; Tptr Tvoid; Tsize_t; Tptr Tchar] /\
  (forall dm g,
      representable dm g ->
      load_game_info dm (store_game_info dm g) = Some g).
Proof.
  split; [reflexivity|]. split; [reflexivity|]. split; [reflexivity|].
  intros dm g Hg. now apply game_info_round_trip.
Qed.

Lemma retro_game_info_layout_witness :
  load_game_info LP64 (store_game_info LP64 (mkgame 4096 8192 262144 0))
  = Some (mkgame 4096 8192 262144 0).
Proof.
  apply (proj2 (proj2 (proj2 retro_game_info_layout))).
  unfold representable. cbn. lia.
Defined.

(** The image of that value under LP64: 32 bytes, no padding. *)
Example retro_game_info_image :
  store_game_info LP64 (mkgame 4096 8192 262144 0)
  = [0; 16; 0; 0; 0; 0; 0; 0;   0; 32; 0; 0; 0; 0; 0; 0;
     0; 0; 4; 0; 0; 0; 0; 0;    0; 0; 0; 0; 0; 0; 0; 0].
Proof. reflexivity. Qed.

End GameInfo.

(** ** Function names after pasting never collide *)

Section Names.

Import Libretro StaticCores.

Lemma append_length (p a : string) :
  String.length (p ++ a) = String.length p + String.length a.
Proof. induction p as [|c p IH]; simpl; [reflexivity | now rewrite IH]. Qed.

Lemma append_inj_l (p a b : string) : p ++ a = p ++ b -> a = b.
Proof.
  intros H. apply String.eqb_eq. rewrite <- (append_eqb_l p).
  now apply String.eqb_eq.
Qed.

Lemma append_inj_r (a : string) : forall p q, p ++ a = q ++ a -> p = q.
Proof.
  induction p as [|c p IH]; intros [|c' q] H; simpl in H.
  - reflexivity.
  - apply (f_equal String.length) in H. simpl in H.
    rewrite append_length in H. lia.
  - apply (f_equal String.length) in H. simpl in H.
    rewrite append_length in H. lia.
  - injection H as -> H. f_equal. now apply IH.
Qed.

Lemma is_suffixb_app (r a : string) : is_suffixb a (r ++ a) = true.
Proof.
  induction r as [|c r IH]; simpl.
  - destruct a; simpl; [reflexivity|].
    now rewrite Ascii.eqb_refl, String.eqb_refl.
  - rewrite IH. apply orb_true_r.
Qed.

(** Two strings that end a common string: one is the end of the other. *)
Lemma common_end (a b : string) :
  forall p q, p ++ a = q ++ b ->
              is_suffixb a b = true \/ is_suffixb b a = true.
Proof.
  induction p as [|c p IH]; intros [|c' q] H; simpl in H.
  - subst. left. apply (is_suffixb_app "").
  - subst. right. apply (is_suffixb_app (String c' q)).
  - subst. left. apply (is_suffixb_app (String c p)).
  - injection H as _ H. now apply (IH q).
Qed.

(** None of the 25 names the macro pastes onto is the end of another. *)
Lemma macro_suffixes_end_apart (a b : string) :
  In a macro_suffixes -> In b macro_suffixes ->
  is_suffixb a b = true -> a = b.
Proof.
  intros Ha Hb H.
  assert (Hall : forallb (fun a => forallb (fun b => negb (is_suffixb a b)
                                                    || String.eqb a b)
                                           macro_suffixes)
                         macro_suffixes = true)
    by (vm_compute; reflexivity).
  rewrite forallb_forall in Hall. specialize (Hall a Ha).
  rewrite forallb_forall in Hall. specialize (Hall b Hb).
  rewrite H in Hall. simpl in Hall. now apply String.eqb_eq.
Qed.

(** None of them is the end of a name of the base API. *)
Lemma macro_suffixes_end_no_base_name (a n : string) :
  In a macro_suffixes -> In n (map fd_name api) -> is_suffixb a n = false.
Proof.
  intros Ha Hn.
  assert (Hall : forallb (fun a => forallb (fun n => negb (is_suffixb a n))
                                           (map fd_name api))
                         macro_suffixes = true)
    by (vm_compute; reflexivity).
  rewrite forallb_forall in Hall. specialize (Hall a Ha).
  rewrite forallb_forall in Hall. specialize (Hall n Hn).
  now apply negb_true_iff.
Qed.

Lemma macro_suffixes_NoDup : NoDup macro_suffixes.
Proof.
  apply (NoDup_count_occ' string_dec). intros x Hx.
  unfold macro_suffixes in *. simpl in Hx.
  repeat (destruct Hx as [<-|Hx]; [reflexivity|]). contradiction.
Qed.

Lemma api_names_NoDup : NoDup (map fd_name api).
Proof.
  apply (NoDup_count_occ' string_dec). intros x Hx.
  simpl in Hx.
  repeat (destruct Hx as [<-|Hx]; [reflexivity|]). contradiction.
Qed.

Lemma core_declarations_NoDup : NoDup core_declarations.
Proof.
  apply (NoDup_count_occ' string_dec). intros x Hx.
  unfold core_declarations in *.
  repeat (destruct Hx as [<-|Hx]; [reflexivity|]). contradiction.
Qed.

(** The names of one expansion: the argument in front of each suffix. *)
Lemma macro_names (PREFIX : string) :
  map fd_name (DECLARE_LIBRETRO_CORE PREFIX)
  = map (append PREFIX) macro_suffixes.
Proof. reflexivity. Qed.

Lemma macro_names_flat (prefixes : list string) :
  map fd_name (flat_map DECLARE_LIBRETRO_CORE prefixes)
  = flat_map (fun p => map (append p) macro_suffixes) prefixes.
Proof.
  induction prefixes as [|p ps IH]; [reflexivity|].
  cbn [flat_map]. now rewrite map_app, IH, macro_names.
Qed.

(** A name of two expansions comes from one argument. *)
Lemma pasted_names_agree (p q a b : string) :
  In a macro_suffixes -> In b macro_suffixes ->
  p ++ a = q ++ b -> p = q /\ a = b.
Proof.
  intros Ha Hb H.
  assert (Hab : a = b).
  { destruct (common_end a b p q H) as [Hs|Hs].
    - now apply macro_suffixes_end_apart.
    - symmetry. now apply macro_suffixes_end_apart. }
  subst b. split; [now apply (append_inj_r a) | reflexivity].
Qed.

Lemma expansions_NoDup (prefixes : list string) :
  NoDup prefixes ->
  NoDup (flat_map (fun p => map (append p) macro_suffixes) prefixes).
Proof.
  induction 1 as [|p ps Hnotin Hnd IH]; [constructor|].
  cbn [flat_map]. apply NoDup_app.
  - apply NoDup_map_NoDup_ForallPairs; [|exact macro_suffixes_NoDup].
    intros a b _ _ Hab. now apply (append_inj_l p).
  - exact IH.
  - intros x Hx Hx'.
    apply in_map_iff in Hx. destruct Hx as [a [<- Ha]].
    apply in_flat_map in Hx'. destruct Hx' as [q [Hq Hx']].
    apply in_map_iff in Hx'. destruct Hx' as [b [Hqb Hb]].
    destruct (pasted_names_agree q p b a Hb Ha Hqb) as [-> _].
    contradiction.
Qed.

(** X2: a translation unit that includes libretro.h and uses the macro
    once for each of a list of distinct prefixes, whatever they are,
    declares no function name twice: no two prefixed names are equal and
    none equals a name of the base API. *)
Theorem prefixed_names_never_collide (prefixes : list string) :
  NoDup prefixes -> NoDup (function_names prefixes).
Proof.
  intros Hnd. unfold function_names. rewrite macro_names_flat.
  apply NoDup_app.
  - exact api_names_NoDup.
  - now apply expansions_NoDup.
  - intros n Hn Hn'.
    apply in_flat_map in Hn'. destruct Hn' as [p [_ Hn']].
    apply in_map_iff in Hn'. destruct Hn' as [a [<- Ha]].
    pose proof (macro_suffixes_end_no_base_name a _ Ha Hn) as Hno.
    rewrite is_suffixb_app in Hno. discriminate.
Qed.

Lemma prefixed_names_never_collide_witness :
  NoDup (function_names core_declarations).
Proof.
  apply prefixed_names_never_collide. exact core_declarations_NoDup.
Defined.

End Names.

(** ** Type names are declared before they are used *)

Section Scoping.

Import Libretro StaticCores.








End Scoping.

(** ** Callbacks and their setters *)

Section Setters.

Import Libretro StaticCores.

(** Pasting a prefix on the names does not change which prototypes take a
    callback. *)
Lemma setters_in_paste (PREFIX : string) (c : callback) (l : list fundecl) :
  setters_in (map (paste PREFIX) l) c = map (paste PREFIX) (setters_in l c).
Proof.
  unfold setters_in. induction l as [|g l IH]; simpl; [reflexivity|].
  change (takes (cb_name c) (paste PREFIX g)) with (takes (cb_name c) g).
  rewrite IH. now destruct (takes (cb_name c) g).
Qed.

(** X5: each of the six callbacks set by the frontend is taken by exactly
    one function of the base API, [retro_set_x] for [retro_x_t], which
    returns void and has the callback as its only parameter; and for every
    argument of the macro the same holds of the expansion, with the prefixed
    name. *)
Theorem one_setter_per_callback (PREFIX : string) (c : callback) :
  In c callbacks ->
  setters_in api c
  = [mkfun Tvoid (setter_name c) [anon (Tnamed (cb_name c))]] /\
  setters_in (DECLARE_LIBRETRO_CORE PREFIX) c
  = [mkfun Tvoid (PREFIX ++ "_" ++ setter_name c) [anon (Tnamed (cb_name c))]].
Proof.
  intros Hc. rewrite macro_expansion, setters_in_paste.
  unfold callbacks in Hc.
  repeat (destruct Hc as [<-|Hc]; [split; reflexivity|]).
  contradiction.
Qed.

Lemma one_setter_per_callback_witness :
  setters_in api retro_input_state_t
  = [mkfun Tvoid (setter_name retro_input_state_t)
           [anon (Tnamed (cb_name retro_input_state_t))]] /\
  setters_in (DECLARE_LIBRETRO_CORE "bsnes") retro_input_state_t
  = [mkfun Tvoid ("bsnes" ++ "_" ++ setter_name retro_input_state_t)
           [anon (Tnamed (cb_name retro_input_state_t))]].
Proof.
  apply one_setter_per_callback. unfold callbacks. simpl. tauto.
Defined.



End Setters.

(** ** More on the tables of constants *)

Section Tables.

Import Libretro.
Open Scope Z_scope.



Lemma dense_nth (l : list define) :
  dense_from_zero l ->
  forall k d, nth_error l k = Some d -> d_value d = Z.of_nat k.
Proof.
  unfold dense_from_zero, values, Zrange. intros Hd k d Hk.
  assert (Hv : nth_error (map d_value l) k = Some (d_value d))
    by (now apply map_nth_error).
  rewrite Hd in Hv.
  assert (Hlen : (k < List.length l)%nat)
    by (apply nth_error_Some; congruence).
  rewrite nth_error_map, nth_error_nth' with (d := O) in Hv
    by (now rewrite length_seq).
  rewrite seq_nth in Hv by assumption. simpl in Hv. now injection Hv as <-.
Qed.

(** X8: the device types and the languages number their table from 0 with
    no gap: the k-th define has the value k, so the device types are
    exactly 0 to 6 and the languages exactly 0 to 12. *)
Theorem device_types_and_languages_dense :
  (forall k d, nth_error device_types k = Some d -> d_value d = Z.of_nat k) /\
  (forall k d, nth_error languages k = Some d -> d_value d = Z.of_nat k) /\
  (forall n, In n (values device_types) <-> 0 <= n <= 6) /\
  (forall n, In n (values languages) <-> 0 <= n <= 12).
Proof.
  assert (Hdev : dense_from_zero device_types) by reflexivity.
  assert (Hlang : dense_from_zero languages) by reflexivity.
  split; [exact (dense_nth _ Hdev)|]. split; [exact (dense_nth _ Hlang)|].
  split; intros n.
  - rewrite Hdev, Zrange_In. simpl. lia.
  - rewrite Hlang, Zrange_In. simpl. lia.
Qed.

Lemma device_types_and_languages_dense_witness :
  d_value (mkdef "RETRO_LANGUAGE_KOREAN" 10) = Z.of_nat 10.
Proof.
  apply (proj1 (proj2 device_types_and_languages_dense)). reflexivity.
Defined.

(** X9: with the numbering rule of C, the log levels DEBUG, INFO, WARN and
    ERROR are 0, 1, 2 and 3, and DUMMY is [INT_MAX]; on every platform
    ([INT_MAX] is at least 32767) the five values differ from each other and
    lie between 0 and [INT_MAX]. *)
Theorem log_levels (INT_MAX : Z) :
  32767 <= INT_MAX ->
  map (fun d => (d_name d, d_value d)) (enum_values 0 (retro_log_level INT_MAX))
  = [ ("RETRO_LOG_DEBUG", 0); ("RETRO_LOG_INFO", 1); ("RETRO_LOG_WARN", 2);
      ("RETRO_LOG_ERROR", 3); ("RETRO_LOG_DUMMY", INT_MAX) ] /\
  NoDup (values (enum_values 0 (retro_log_level INT_MAX))) /\
  Forall (fun d => 0 <= d_value d <= INT_MAX)
         (enum_values 0 (retro_log_level INT_MAX)).
Proof.
  intros Hmax. split; [reflexivity|]. split.
  - cbn. repeat constructor; simpl; lia.
  - cbn. repeat constructor; simpl; lia.
Qed.

Lemma log_levels_witness :
  map (fun d => (d_name d, d_value d))
      (enum_values 0 (retro_log_level 2147483647))
  = [ ("RETRO_LOG_DEBUG", 0); ("RETRO_LOG_INFO", 1); ("RETRO_LOG_WARN", 2);
      ("RETRO_LOG_ERROR", 3); ("RETRO_LOG_DUMMY", 2147483647) ] /\
  NoDup (values (enum_values 0 (retro_log_level 2147483647))) /\
  Forall (fun d => 0 <= d_value d <= 2147483647)
         (enum_values 0 (retro_log_level 2147483647)).
Proof. apply log_levels. lia. Defined.

(** X10: the pixel formats are mutually exclusive on every platform
    ([UINT_MAX] is at least 65535): the four values differ from each other,
    lie in the range of [unsigned], and only UNKNOWN is [UINT_MAX]. *)
Theorem pixel_formats_exclusive (UINT_MAX : Z) :
  65535 <= UINT_MAX ->
  NoDup (values (pixel_formats UINT_MAX)) /\
  Forall (fun d => 0 <= d_value d <= UINT_MAX) (pixel_formats UINT_MAX) /\
  (forall d, In d (pixel_formats UINT_MAX) ->
             d_value d = UINT_MAX -> d_name d = "RETRO_PIXEL_FORMAT_UNKNOWN").
Proof.
  intros Hmax. split; [|split].
  - cbn. repeat constructor; simpl; lia.
  - cbn. repeat constructor; simpl; lia.
  - intros d Hd Hv. simpl in Hd.
    destruct Hd as [<-|[<-|[<-|[<-|[]]]]]; simpl in *; trivial; lia.
Qed.

Lemma pixel_formats_exclusive_witness :
  NoDup (values (pixel_formats 4294967295)) /\
  Forall (fun d => 0 <= d_value d <= 4294967295) (pixel_formats 4294967295) /\
  (forall d, In d (pixel_formats 4294967295) ->
             d_value d = 4294967295 -> d_name d = "RETRO_PIXEL_FORMAT_UNKNOWN").
Proof. apply pixel_formats_exclusive. lia. Defined.

End Tables.

Section MacroWitness.

Import Libretro StaticCores.

Lemma macro_declares_each_once_witness :
  exists g,
    counterparts_in (DECLARE_LIBRETRO_CORE "snes9x") "snes9x"
                    (mkfun T_Bool "retro_unserialize"
                           [named (Tptr (Tconst Tvoid)) "data";
                            named Tsize_t "size"]) = [g] /\
    same_signature
      (mkfun T_Bool "retro_unserialize"
             [named (Tptr (Tconst Tvoid)) "data"; named Tsize_t "size"]) g /\
    param_names
      (mkfun T_Bool "retro_unserialize"
             [named (Tptr (Tconst Tvoid)) "data"; named Tsize_t "size"])
    = param_names g.
Proof.
  apply macro_declares_each_once. unfold api. simpl. tauto.
Defined.

End MacroWitness.
